(** * Configuration utilities of synthetic-data-kit

    A shallow embedding of [synthetic_data_kit/utils/config.py]: the parsed
    YAML document, the accessors over it, the recursive merge (both as a
    function on documents and as a program over a store of mutable
    dictionary objects), and the loader over a file system.

    Python exceptions are modelled as they are raised: the accessors index
    whatever the document holds, so a section that is not a mapping makes
    them raise [AttributeError] or [TypeError]. *)

From Stdlib Require Import ZArith.
From Stdlib Require Import Floats.PrimFloat.
From stdpp Require Import gmap strings list fin_maps option.

Set Default Proof Using "Type".
#[local] Set Warnings "-register-all,-inexact-float".

(** ** Documents

    What [yaml.safe_load] builds from the core YAML schema: scalars,
    sequences and mappings.  Mappings have string keys (the accessors are
    typed [Dict[str, Any]]); a Python [dict] holds each key once and two
    dicts are equal when they hold the same entries, which is what [gmap]
    with its extensional equality gives. *)

Inductive value :=
| VNone
| VBool (b : bool)
| VInt (n : Z)
| VFloat (f : float)
| VStr (s : string)
| VList (l : list value)
| VDict (d : gmap string value).

Abbreviation dict := (gmap string value).

(** ** Exceptions and the error monad *)

Inductive exn :=
| ValueError (msg : string)
| FileNotFoundError (msg : string)
| IsADirectoryError
| AttributeError
| TypeError
| KeyError (key : string)
| YAMLError.

Inductive result (A : Type) :=
| Ok (a : A)
| Raise (e : exn).
Arguments Ok {A} a.
Arguments Raise {A} e.

#[global] Instance result_ret : MRet result := fun A a => Ok a.

#[global] Instance result_bind : MBind result := fun A B f m =>
  match m with
  | Ok a => f a
  | Raise e => Raise e
  end.

(** ** The Python operations the module uses, on documents *)

(** [needle in hay] on two [str]: substring test. *)
Fixpoint str_contains (needle hay : string) : bool :=
  String.prefix needle hay ||
  match hay with
  | EmptyString => false
  | String _ rest => str_contains needle rest
  end.

(** [v == s] for a [str] literal [s]: only an equal [str] compares equal. *)
Definition py_eq_str (v : value) (s : string) : bool :=
  match v with
  | VStr s' => bool_decide (s' = s)
  | _ => false
  end.

(** [key in container] for a [str] key. *)
Definition py_in (key : string) (container : value) : result bool :=
  match container with
  | VDict d => Ok (bool_decide (is_Some (d !! key)))
  | VStr s => Ok (str_contains key s)
  | VList l => Ok (existsb (fun x => py_eq_str x key) l)
  | VNone | VBool _ | VInt _ | VFloat _ => Raise TypeError
  end.

(** [container[key]] for a [str] key. *)
Definition py_getitem (container : value) (key : string) : result value :=
  match container with
  | VDict d =>
      match d !! key with
      | Some v => Ok v
      | None => Raise (KeyError key)
      end
  | _ => Raise TypeError
  end.

(** [obj.get(key, dflt)]: only a [dict] has the method. *)
Definition py_get (obj : value) (key : string) (dflt : value) : result value :=
  match obj with
  | VDict d => Ok (default dflt (d !! key))
  | _ => Raise AttributeError
  end.

(** Truth value of an [Optional[str]] argument: [None] and [''] are false. *)
Definition truthy (file_type : option string) : bool :=
  match file_type with
  | None | Some EmptyString => false
  | Some _ => true
  end.

(** The key an [Optional[str]] argument denotes once it is known truthy. *)
Definition str_of (file_type : option string) : string :=
  default EmptyString file_type.

(** ** get_path_config *)

Definition unknown_path_type (path_type : string) : exn :=
  ValueError ("Unknown path type: " +:+ path_type).

Definition get_path_config (config : dict) (path_type : string)
    (file_type : option string) : result value :=
  let paths := default (VDict ∅) (config !! "paths") in
  if String.eqb path_type "input" then
    input_config ← py_get paths "input" (VStr "data/input");
    match input_config with
    | VStr _ => Ok input_config
    | VDict d =>
        if truthy file_type && bool_decide (is_Some (d !! str_of file_type))
        then py_getitem input_config (str_of file_type)
        else py_get input_config "default" (VStr "data/input")
    | _ => Ok (VStr "data/input")
    end
  else if String.eqb path_type "output" then
    output_paths ← py_get paths "output" (VDict ∅);
    present ← (if truthy file_type
               then py_in (str_of file_type) output_paths
               else Ok false);
    if (present : bool)
    then py_getitem output_paths (str_of file_type)
    else py_get output_paths "default" (VStr "data/output")
  else Raise (unknown_path_type path_type).

(** ** Section getters *)

Definition default_vllm_config : dict :=
  <["api_base" := VStr "http://localhost:8000/v1"]>
  (<["port" := VInt 8000]>
  (<["model" := VStr "meta-llama/Llama-3.3-70B-Instruct"]>
  (<["max_retries" := VInt 3]>
  (<["retry_delay" := VFloat 1.0]> ∅)))).

Definition default_openai_config : dict :=
  <["api_base" := VNone]>
  (<["api_key" := VNone]>
  (<["model" := VStr "gpt-4o"]>
  (<["max_retries" := VInt 3]>
  (<["retry_delay" := VFloat 1.0]> ∅)))).

Definition default_generation_config : dict :=
  <["temperature" := VFloat 0.7]>
  (<["top_p" := VFloat 0.95]>
  (<["chunk_size" := VInt 4000]>
  (<["overlap" := VInt 200]>
  (<["max_tokens" := VInt 4096]> ∅)))).

Definition default_curate_config : dict :=
  <["threshold" := VFloat 7.0]>
  (<["batch_size" := VInt 8]>
  (<["temperature" := VFloat 0.1]> ∅)).

Definition default_format_config : dict :=
  <["default" := VStr "jsonl"]>
  (<["include_metadata" := VBool true]>
  (<["pretty_json" := VBool true]> ∅)).

Definition get_vllm_config (config : dict) : value :=
  default (VDict default_vllm_config) (config !! "vllm").

Definition get_openai_config (config : dict) : value :=
  default (VDict default_openai_config) (config !! "api-endpoint").

Definition get_generation_config (config : dict) : value :=
  default (VDict default_generation_config) (config !! "generation").

Definition get_curate_config (config : dict) : value :=
  default (VDict default_curate_config) (config !! "curate").

Definition get_format_config (config : dict) : value :=
  default (VDict default_format_config) (config !! "format").

(** ** get_prompt *)

Definition prompt_not_found (prompt_name : string) : exn :=
  ValueError ("Prompt '" +:+ prompt_name +:+ "' not found in configuration").

Definition get_prompt (config : dict) (prompt_name : string) : result value :=
  let prompts := default (VDict ∅) (config !! "prompts") in
  present ← py_in prompt_name prompts;
  if negb present
  then Raise (prompt_not_found prompt_name)
  else py_getitem prompts prompt_name.

(** ** Printed lines and the output monad

    [print] is the only effect of [get_llm_provider] and of the debug code of
    [load_config].  A printed line is recorded as an event that carries the
    value its f-string formats. *)

Inductive output :=
| PrintLoading (config_path : string)
| PrintHasProvider (provider : value)
| PrintNoProvider
| PrintReturning (provider : value)
| PrintWarning (provider : value).

Definition io (A : Type) : Type := list output * result A.

#[global] Instance io_ret : MRet io := fun A a => ([], Ok a).

#[global] Instance io_bind : MBind io := fun A B f m =>
  match m with
  | (out, Ok a) => let '(out', r) := f a in (out ++ out', r)
  | (out, Raise e) => (out, Raise e)
  end.

Definition print (line : output) : io unit := ([line], Ok tt).

Definition lift {A} (r : result A) : io A := ([], r).

(** Short-circuit [and] of two conditions that may raise. *)
Definition py_and (a b : result bool) : result bool :=
  x ← a; if (x : bool) then b else Ok false.
Infix "<&&>" := py_and (at level 41, right associativity).

(** ** get_llm_provider *)

(** The condition of the [if] that guards the WARNING line. *)
Definition warning_condition (config : dict) (provider : value) : result bool :=
  Ok (negb (py_eq_str provider "api-endpoint"))
  <&&> py_in "llm" (VDict config)
  <&&> (llm ← py_getitem (VDict config) "llm"; py_in "provider" llm)
  <&&> (llm ← py_getitem (VDict config) "llm";
       p ← py_getitem llm "provider";
       Ok (py_eq_str p "api-endpoint")).

Definition get_llm_provider (config : dict) : io value :=
  let llm_config := default (VDict ∅) (config !! "llm") in
  provider ← lift (py_get llm_config "provider" (VStr "vllm"));
  _ ← print (PrintReturning provider);
  warn ← lift (warning_condition config provider);
  _ ← (if (warn : bool) then print (PrintWarning provider) else mret tt);
  mret provider.

(** ** merge_configs, on documents *)

Fixpoint merge_configs_rec (base_config : dict) (override_config : value)
    {struct override_config} : dict :=
  match override_config with
  | VDict items =>
      map_fold (fun key value result =>
        match value, result !! key with
        | VDict _, Some (VDict sub) =>
            <[key := VDict (merge_configs_rec sub value)]> result
        | _, _ => <[key := value]> result
        end) base_config items
  | _ => base_config
  end.

Definition merge_configs (base_config override_config : dict) : dict :=
  merge_configs_rec base_config (VDict override_config).

(** ** merge_configs, on a store of objects

    Python dicts and lists are mutable objects held by reference.  The store
    maps a location to an object; a field of an object is a scalar or a
    reference. *)

Abbreviation loc := positive.

Inductive hval :=
| HNone
| HBool (b : bool)
| HInt (n : Z)
| HFloat (f : float)
| HStr (s : string)
| HRef (l : loc).

Inductive obj :=
| ODict (d : gmap string hval)
| OList (l : list hval).

Abbreviation heap := (gmap loc obj).

Definition alloc (o : obj) (h : heap) : loc * heap :=
  let l := fresh (dom h) in (l, <[l := o]> h).

(** The fields of the dict object at [l], if [l] holds one. *)
Definition lookup_dict (h : heap) (l : loc) : option (gmap string hval) :=
  match h !! l with
  | Some (ODict d) => Some d
  | _ => None
  end.

(** [isinstance(v, dict)], giving the location of the dict. *)
Definition as_dict (h : heap) (v : hval) : option loc :=
  match v with
  | HRef l => if lookup_dict h l is Some _ then Some l else None
  | _ => None
  end.

(** [result[key] = v] on the dict object at [result]. *)
Definition setitem (result : loc) (key : string) (v : hval) (h : heap) : heap :=
  match lookup_dict h result with
  | Some d => <[result := ODict (<[key := v]> d)]> h
  | None => h
  end.

(** One turn of the loop, with [merge] standing for the recursive call:
    the condition of the [if], then one of the two assignments. *)
Definition merge_item (merge : loc → loc → heap → option (loc * heap))
    (result : loc) (key : string) (value : hval) (h : heap) : option heap :=
  match as_dict h value,
        (r ← lookup_dict h result; x ← r !! key; as_dict h x) with
  | Some lv, Some lb =>
      '(m, h2) ← merge lb lv h;
      Some (setitem result key (HRef m) h2)
  | _, _ => Some (setitem result key value h)
  end.

(** The loop runs over the items the override object holds when the loop
    starts. *)
Definition merge_items (merge : loc → loc → heap → option (loc * heap))
    (result : loc) (items : gmap string hval) (h : heap) : option heap :=
  map_fold (fun key value acc => h ← acc; merge_item merge result key value h)
    (Some h) items.

(** [None] stands for exhausted fuel, or for an argument that is not a dict
    object (excluded by the signature). *)
Fixpoint merge_configs_store (fuel : nat) (base_config override_config : loc)
    (h : heap) : option (loc * heap) :=
  match fuel with
  | O => None
  | S fuel' =>
      b ← lookup_dict h base_config;
      items ← lookup_dict h override_config;
      let '(result, h1) := alloc (ODict b) h in
      h' ← merge_items (merge_configs_store fuel') result items h1;
      Some (result, h')
  end.

(** Reading a document back from the store, to depth [n]. *)
Definition map_sequence (m : gmap string (option value)) : option dict :=
  if decide (map_Forall (fun _ o => is_Some o) m)
  then Some (omap id m) else None.

Fixpoint reify (n : nat) (h : heap) (v : hval) : option value :=
  match v with
  | HNone => Some VNone
  | HBool b => Some (VBool b)
  | HInt z => Some (VInt z)
  | HFloat f => Some (VFloat f)
  | HStr s => Some (VStr s)
  | HRef l =>
      match n with
      | O => None
      | S n' =>
          match h !! l with
          | Some (ODict d) => VDict <$> map_sequence (reify n' h <$> d)
          | Some (OList xs) => VList <$> mapM (reify n' h) xs
          | None => None
          end
      end
  end.

(** ** load_config

    The file system maps a path to what lies there.  [yaml.safe_load] belongs
    to PyYAML and the two candidate paths are computed from the module's own
    location, so the loader takes them as parameters. *)

Inductive node :=
| File (content : string)
| Directory.

Abbreviation filesystem := (gmap string node).

Definition os_path_exists (fs : filesystem) (path : string) : bool :=
  bool_decide (is_Some (fs !! path)).

(** [open(path, 'r')] followed by reading the whole file. *)
Definition open_read (fs : filesystem) (path : string) : result string :=
  match fs !! path with
  | Some (File content) => Ok content
  | Some Directory => Raise IsADirectoryError
  | None => Raise (FileNotFoundError path)
  end.

Definition config_not_found (config_path : string) : exn :=
  FileNotFoundError ("Configuration file not found at " +:+ config_path).

Section load.

Variables PACKAGE_CONFIG_PATH ORIGINAL_CONFIG_PATH : string.
Variable safe_load : string → result value.

Definition DEFAULT_CONFIG_PATH : string := PACKAGE_CONFIG_PATH.

(** The path [load_config] settles on before it tests for existence. *)
Definition resolve_config_path (fs : filesystem) (config_path : option string)
    : string :=
  match config_path with
  | Some path => path
  | None =>
      default DEFAULT_CONFIG_PATH
        (find (os_path_exists fs) [PACKAGE_CONFIG_PATH; ORIGINAL_CONFIG_PATH])
  end.

Definition load_config (fs : filesystem) (config_path : option string)
    : io value :=
  let config_path := resolve_config_path fs config_path in
  if negb (os_path_exists fs config_path)
  then lift (Raise (config_not_found config_path))
  else
    _ ← print (PrintLoading config_path);
    text ← lift (open_read fs config_path);
    config ← lift (safe_load text);
    has_provider ← lift (py_in "llm" config
                         <&&> (llm ← py_getitem config "llm";
                               py_in "provider" llm));
    _ ← (if (has_provider : bool)
         then provider ← lift (llm ← py_getitem config "llm";
                               py_getitem llm "provider");
              print (PrintHasProvider provider)
         else print PrintNoProvider);
    mret config.

End load.

(** ** Vocabulary of the specification

    The specification speaks of the entry [section.key] of a document, of a
    section that is a mapping, and of the choice among a keyed entry, the
    [default] entry and a literal fallback. *)

(** The entry [section.key]: present only under a section that is a mapping. *)
Definition section_entry (config : dict) (section key : string) : option value :=
  match config !! section with
  | Some (VDict d) => d !! key
  | _ => None
  end.

(** The mapping under [key]: empty when the key is absent, undefined when the
    key holds something that is not a mapping. *)
Definition mapping_at (parent : dict) (key : string) : option dict :=
  match parent !! key with
  | None => Some ∅
  | Some (VDict d) => Some d
  | Some _ => None
  end.

(** Keyed entry when [file_type] is given and present, else [default], else
    the fallback. *)
Definition select_path (file_type : option string) (d : dict)
    (fallback : string) : value :=
  match file_type ≫= (d !!.) with
  | Some v => v
  | None => default (VStr fallback) (d !! "default")
  end.

(** An empty [file_type] counts as not given. *)
Definition nonempty (file_type : option string) : option string :=
  match file_type with
  | Some EmptyString => None
  | _ => file_type
  end.

(** ** The claims as the specification words them *)

(** The claim about ['input'] as the specification words it: a string entry
    is returned verbatim; under a mapping entry the result is the entry keyed
    by [file_type] when [file_type] is given and present, else [default],
    else ['data/input']. *)
Definition input_path_claim (config : dict) (file_type : option string) : Prop :=
  ∀ entry, section_entry config "paths" "input" = Some entry →
    match entry with
    | VStr s => get_path_config config "input" file_type = Ok (VStr s)
    | VDict d =>
        get_path_config config "input" file_type
        = Ok (select_path file_type d "data/input")
    | _ => True
    end.

(** The claim about ['output'] as the specification words it, for a document
    whose [paths] and [paths.output] are mappings or absent. *)
Definition output_path_claim (config : dict) (file_type : option string) : Prop :=
  ∀ d, (paths ← mapping_at config "paths"; mapping_at paths "output") = Some d →
    get_path_config config "output" file_type
    = Ok (select_path file_type d "data/output").

(** The claim as the specification words it, over every document: the
    not-found error exactly when the entry [prompts.<name>] is absent, the
    stored prompt otherwise. *)
Definition get_prompt_claim (config : dict) (prompt_name : string) : Prop :=
  (get_prompt config prompt_name = Raise (prompt_not_found prompt_name)
   ↔ section_entry config "prompts" prompt_name = None) ∧
  (∀ v, section_entry config "prompts" prompt_name = Some v →
        get_prompt config prompt_name = Ok v).

(** The claim as the specification words it, over every document: the stored
    [llm.provider] when present, ['vllm'] when the entry is absent. *)
Definition llm_provider_claim (config : dict) : Prop :=
  (get_llm_provider config).2 =
    Ok (default (VStr "vllm") (section_entry config "llm" "provider")).

(** ** Example documents, stores and parsers *)

Definition empty_key_input : dict :=
  {[ "paths" := VDict {[ "input" :=
       VDict (<["" := VStr "/a"]> {[ "default" := VStr "/b" ]}) ]} ]}.

Definition pdf_default_input : dict :=
  {[ "paths" := VDict {[ "input" :=
       VDict (<["pdf" := VStr "/a"]> {[ "default" := VStr "/b" ]}) ]} ]}.

Definition empty_key_output : dict :=
  {[ "paths" := VDict {[ "output" :=
       VDict (<["" := VStr "/a"]> {[ "default" := VStr "/b" ]}) ]} ]}.

Definition pdf_default_output : dict :=
  {[ "paths" := VDict {[ "output" :=
       VDict (<["pdf" := VStr "/a"]> {[ "default" := VStr "/b" ]}) ]} ]}.

Definition summary_prompts : dict :=
  {[ "prompts" := VDict {[ "summary" := VStr "Summarize." ]} ]}.

Definition api_endpoint_llm : dict :=
  {[ "llm" := VDict {[ "provider" := VStr "api-endpoint" ]} ]}.

Definition merge_example_base : dict :=
  {[ "a" := VDict (<["x" := VInt 1]> {[ "y" := VInt 2 ]}) ]}.

Definition merge_example_override : dict :=
  {[ "a" := VDict (<["y" := VInt 9]> {[ "z" := VInt 3 ]}) ]}.

Definition merge_example_result : dict :=
  {[ "a" := VDict (<["x" := VInt 1]> (<["y" := VInt 9]> {[ "z" := VInt 3 ]})) ]}.

(** The specification's example as a store: object 1 is the base
    [{'a': <2>}], object 2 its nested mapping [{'x': 1, 'y': 2}], object 3
    the override [{'a': <4>}], object 4 its nested mapping
    [{'y': 9, 'z': 3}]. *)
Definition merge_example_store : heap :=
  <[1%positive := ODict {[ "a" := HRef 2%positive ]}]>
  (<[2%positive := ODict (<["x" := HInt 1]> {[ "y" := HInt 2 ]})]>
  (<[3%positive := ODict {[ "a" := HRef 4%positive ]}]>
  (<[4%positive := ODict (<["y" := HInt 9]> {[ "z" := HInt 3 ]})]> ∅))).

(** A parser that knows one document: the text [llm:] is the mapping with
    the key [llm] bound to [None]. *)
Definition parse_null_llm (text : string) : result value :=
  if String.eqb text "llm:" then Ok (VDict {[ "llm" := VNone ]})
  else Raise YAMLError.

(** Documents for the merged accessors. *)
Definition vllm_llm : dict :=
  {[ "llm" := VDict {[ "provider" := VStr "vllm" ]} ]}.

Definition qa_prompts : dict :=
  {[ "prompts" := VDict {[ "qa" := VStr "Ask." ]} ]}.

Definition txt_output : dict :=
  {[ "paths" := VDict {[ "output" := VDict {[ "txt" := VStr "/t" ]} ]} ]}.

(** A parser that knows one document with a provider. *)
Definition parse_api_endpoint (text : string) : result value :=
  if String.eqb text "llm: {provider: api-endpoint}"
  then Ok (VDict api_endpoint_llm)
  else Raise YAMLError.

(** ** Invariants of the store program *)

(** The state of the loop once the items [m] of the override are done.  The
    store [hh] extends the store [h] of the call; [g] is the part of it that
    the result is read from: the part [h0] the arguments were read from and
    objects made since, but not the result object itself. *)
Definition loop_inv (n : nat) (h0 h : heap) (result : loc) (b o : dict)
    (m : gmap string hval) (hh : heap) : Prop :=
  ∃ (g : heap) (rd : gmap string hval),
    h ⊆ hh ∧ h0 ⊆ g ∧ g ⊆ hh ∧ g !! result = None ∧
    (∀ l, is_Some (h !! l) → is_Some (g !! l) → is_Some (h0 !! l)) ∧
    hh !! result = Some (ODict rd) ∧
    ∀ k, reify n g <$> rd !! k =
         Some <$> (if m !! k is Some _ then merge_configs b o !! k else b !! k).

(** The refinement statement at fuel [n], with its frame: the arguments are
    read from a part [h0] of the store [h], and the result is read from a
    part [h0'] of the final store that adds to [h0] only objects the call
    made. *)
Definition refines_at (n : nat) : Prop :=
  ∀ (h0 h : heap) (base_config override_config : loc) (b o : dict),
    h0 ⊆ h →
    reify n h0 (HRef base_config) = Some (VDict b) →
    reify n h0 (HRef override_config) = Some (VDict o) →
    ∃ r h' h0',
      merge_configs_store n base_config override_config h = Some (r, h') ∧
      h0 ⊆ h0' ∧ h0' ⊆ h' ∧
      (∀ l, is_Some (h !! l) → is_Some (h0' !! l) → is_Some (h0 !! l)) ∧
      reify n h0' (HRef r) = Some (VDict (merge_configs b o)).

(** ** Nesting depth of a document

    How deep mappings nest in a value; [merge_configs] recurses into nested
    mappings only, so lists count as leaves. *)

Fixpoint depth (v : value) : nat :=
  match v with
  | VDict d => S (map_fold (fun _ x acc => Nat.max (depth x) acc) O d)
  | _ => O
  end.

(** * Properties *)

(** ** Section getters *)

(** C5: each section getter returns the stored subsection verbatim when its
    top-level key is present, whatever is stored there, and returns exactly
    the documented literal default mapping when the key is absent. *)
Theorem section_getters_spec (config : dict) :
  (get_vllm_config config =
     match config !! "vllm" with
     | Some stored => stored
     | None => VDict (list_to_map
         [("api_base", VStr "http://localhost:8000/v1"); ("port", VInt 8000);
          ("model", VStr "meta-llama/Llama-3.3-70B-Instruct");
          ("max_retries", VInt 3); ("retry_delay", VFloat 1.0)])
     end) ∧
  (get_openai_config config =
     match config !! "api-endpoint" with
     | Some stored => stored
     | None => VDict (list_to_map
         [("api_base", VNone); ("api_key", VNone); ("model", VStr "gpt-4o");
          ("max_retries", VInt 3); ("retry_delay", VFloat 1.0)])
     end) ∧
  (get_generation_config config =
     match config !! "generation" with
     | Some stored => stored
     | None => VDict (list_to_map
         [("temperature", VFloat 0.7); ("top_p", VFloat 0.95);
          ("chunk_size", VInt 4000); ("overlap", VInt 200);
          ("max_tokens", VInt 4096)])
     end) ∧
  (get_curate_config config =
     match config !! "curate" with
     | Some stored => stored
     | None => VDict (list_to_map
         [("threshold", VFloat 7.0); ("batch_size", VInt 8);
          ("temperature", VFloat 0.1)])
     end) ∧
  (get_format_config config =
     match config !! "format" with
     | Some stored => stored
     | None => VDict (list_to_map
         [("default", VStr "jsonl"); ("include_metadata", VBool true);
          ("pretty_json", VBool true)])
     end).
Proof.
  unfold get_vllm_config, get_openai_config, get_generation_config,
    get_curate_config, get_format_config.
  repeat apply conj.
  - by destruct (config !! "vllm").
  - by destruct (config !! "api-endpoint").
  - by destruct (config !! "generation").
  - by destruct (config !! "curate").
  - by destruct (config !! "format").
Qed.

(** A stored section that lacks fields is returned as it is: no field of the
    default mapping is filled in. *)
Example get_vllm_config_partial :
  get_vllm_config {[ "vllm" := VDict {[ "port" := VInt 9000 ]} ]}
  = VDict {[ "port" := VInt 9000 ]}.
Proof. reflexivity. Qed.

(** ** get_path_config *)

(** C9: [get_path_config] raises the unknown-path-type [ValueError] exactly
    when [path_type] is neither ['input'] nor ['output']; within the two
    known path types no [ValueError] of any message is raised. *)
Theorem get_path_config_invalid (config : dict) (path_type : string)
    (file_type : option string) :
  ((path_type ≠ "input" ∧ path_type ≠ "output") ↔
     get_path_config config path_type file_type
     = Raise (unknown_path_type path_type)) ∧
  ((∃ msg, get_path_config config path_type file_type
           = Raise (ValueError msg)) ↔
     (path_type ≠ "input" ∧ path_type ≠ "output")).
Proof.
  assert (Hknown : ∀ msg, path_type = "input" ∨ path_type = "output" →
            get_path_config config path_type file_type ≠ Raise (ValueError msg)).
  { intros msg Hpt. unfold get_path_config.
    destruct Hpt as [-> | ->]; simpl.
    - destruct (default (VDict ∅) (config !! "paths")) as [| | | | | |paths];
        simpl; try done.
      destruct (default (VStr "data/input") (paths !! "input"))
        as [| | | | | |d] eqn:Hin; try done.
      destruct (truthy file_type && bool_decide (is_Some (d !! str_of file_type)))
        eqn:Hc; simpl; [|done].
      apply andb_true_iff in Hc as [_ Hc]. apply bool_decide_eq_true in Hc.
      destruct Hc as [v ->]. done.
    - destruct (default (VDict ∅) (config !! "paths")) as [| | | | | |paths];
        simpl; try done.
      destruct (default (VDict ∅) (paths !! "output"))
        as [| | | |s|l|d] eqn:Hout; destruct (truthy file_type); simpl;
        try done.
      + by destruct (str_contains _ _).
      + by destruct (existsb _ _).
      + case_bool_decide as Hc; simpl; [|done]. by destruct Hc as [v ->]. }
  assert (Hunknown : path_type ≠ "input" → path_type ≠ "output" →
            get_path_config config path_type file_type
            = Raise (unknown_path_type path_type)).
  { intros H1 H2. unfold get_path_config.
    apply String.eqb_neq in H1, H2. by rewrite H1, H2. }
  split; split.
  - intros [H1 H2]. by apply Hunknown.
  - intros Hr. split; intros ->; by eapply Hknown; eauto.
  - intros [msg Hr]. split; intros ->; by eapply Hknown; eauto.
  - intros [H1 H2]. eexists. by apply Hunknown.
Qed.

(** The specification's example: ['bogus'] is refused. *)
Example get_path_config_bogus (config : dict) :
  get_path_config config "bogus" None
  = Raise (ValueError "Unknown path type: bogus").
Proof. reflexivity. Qed.

(** The claim fails for the empty [file_type]: the guard [if file_type and
    ...] takes [''] for absent, so the entry keyed [''] is passed over and the
    [default] entry comes back. *)
Lemma input_path_claim_fails_on_empty_file_type :
  get_path_config empty_key_input "input" (Some "") = Ok (VStr "/b") ∧
  ¬ input_path_claim empty_key_input (Some "").
Proof.
  split; [reflexivity|].
  intros Hclaim.
  specialize (Hclaim _ eq_refl). vm_compute in Hclaim. discriminate.
Qed.

(** C3, amended: a string entry [paths.input] is returned verbatim for every
    [file_type]; under a mapping entry the result is the entry keyed by
    [file_type] when [file_type] is given, not empty, and present, else the
    [default] entry when present, else ['data/input'].  Any other entry, or
    none, gives ['data/input'], unless [paths] is not a mapping and has no
    [get] method. *)
Theorem get_path_config_input (config : dict) (file_type : option string) :
  match section_entry config "paths" "input" with
  | Some (VStr s) => get_path_config config "input" file_type = Ok (VStr s)
  | Some (VDict d) =>
      get_path_config config "input" file_type
      = Ok (select_path (nonempty file_type) d "data/input")
  | _ =>
      get_path_config config "input" file_type = Ok (VStr "data/input") ∨
      get_path_config config "input" file_type = Raise AttributeError
  end.
Proof.
  unfold section_entry, get_path_config. simpl.
  destruct (config !! "paths") as [[| | | | | |paths]|]; simpl; auto.
  destruct (paths !! "input") as [[| | | | | |d]|]; simpl; auto.
  unfold select_path.
  destruct file_type as [[|c ft]|]; simpl; try done.
  by destruct (d !! String c ft) as [v|] eqn:Hv.
Qed.

Example get_path_config_input_pdf :
  get_path_config pdf_default_input "input" (Some "pdf") = Ok (VStr "/a").
Proof. reflexivity. Qed.

(** The specification's examples for ['input']. *)
Example get_path_config_input_docx :
  get_path_config pdf_default_input "input" (Some "docx") = Ok (VStr "/b").
Proof. reflexivity. Qed.

Example get_path_config_input_string (file_type : option string) :
  get_path_config {[ "paths" := VDict {[ "input" := VStr "/data" ]} ]}
    "input" file_type = Ok (VStr "/data").
Proof. reflexivity. Qed.

(** As for ['input'], the empty [file_type] is taken for absent. *)
Lemma output_path_claim_fails_on_empty_file_type :
  get_path_config empty_key_output "output" (Some "") = Ok (VStr "/b") ∧
  ¬ output_path_claim empty_key_output (Some "").
Proof.
  split; [reflexivity|].
  intros Hclaim.
  specialize (Hclaim _ eq_refl). vm_compute in Hclaim. discriminate.
Qed.

(** C4, amended: when [paths] and [paths.output] are mappings or absent, the
    result for ['output'] is the entry keyed by [file_type] when [file_type]
    is given, not empty, and present, else the [default] entry when present,
    else ['data/output'].  An entry that is not a mapping is used as one all
    the same, and the call raises. *)
Theorem get_path_config_output (config : dict) (file_type : option string) :
  match paths ← mapping_at config "paths"; mapping_at paths "output" with
  | Some d =>
      get_path_config config "output" file_type
      = Ok (select_path (nonempty file_type) d "data/output")
  | None =>
      get_path_config config "output" file_type = Raise AttributeError ∨
      get_path_config config "output" file_type = Raise TypeError
  end.
Proof.
  unfold mapping_at, get_path_config. simpl.
  assert (Hmapping : ∀ d : dict,
    (present ← (if truthy file_type
                then py_in (str_of file_type) (VDict d) else Ok false);
     if (present : bool) then py_getitem (VDict d) (str_of file_type)
     else py_get (VDict d) "default" (VStr "data/output"))
    = Ok (select_path (nonempty file_type) d "data/output")).
  { intros d. unfold select_path.
    destruct file_type as [[|c ft]|]; simpl; try done.
    by destruct (d !! String c ft) as [v|] eqn:Hv. }
  destruct (config !! "paths") as [[| | | | | |paths]|]; simpl; auto.
  - destruct (paths !! "output") as [[| | | |s|l|d]|];
      try apply Hmapping; simpl; destruct (truthy file_type); simpl; auto.
    + destruct (str_contains _ _); simpl; auto.
    + destruct (existsb _ _); simpl; auto.
  - rewrite lookup_empty. apply (Hmapping ∅).
Qed.

Example get_path_config_output_pdf :
  get_path_config pdf_default_output "output" (Some "pdf") = Ok (VStr "/a").
Proof. reflexivity. Qed.

(** An entry [paths.output] that is not a mapping is still used as one: the
    string ['out'] has no [get] method. *)
Example get_path_config_output_string :
  get_path_config {[ "paths" := VDict {[ "output" := VStr "out" ]} ]}
    "output" None = Raise AttributeError.
Proof. reflexivity. Qed.

Example get_path_config_output_absent :
  get_path_config ∅ "output" (Some "pdf") = Ok (VStr "data/output").
Proof. reflexivity. Qed.

(** ** get_prompt *)

(** A [prompts:] key with nothing under it parses to [None]; the entry is
    absent, yet the membership test on [None] raises [TypeError] before the
    not-found error can be raised. *)
Lemma get_prompt_claim_fails_on_null_section :
  get_prompt {[ "prompts" := VNone ]} "missing" = Raise TypeError ∧
  ¬ get_prompt_claim {[ "prompts" := VNone ]} "missing".
Proof.
  split; [reflexivity|].
  intros [Hiff _]. destruct Hiff as [_ Habsent].
  specialize (Habsent eq_refl). vm_compute in Habsent. discriminate.
Qed.

(** C6, amended: on a document whose [prompts] section is absent or a
    mapping, [get_prompt] raises the not-found error exactly when the entry
    [prompts.<name>] is absent (which covers an absent section) and returns
    the stored prompt otherwise.  On any other document it raises, with
    [TypeError] or with the not-found error. *)
Theorem get_prompt_spec (config : dict) (prompt_name : string) :
  match mapping_at config "prompts" with
  | Some prompts =>
      section_entry config "prompts" prompt_name = prompts !! prompt_name ∧
      get_prompt config prompt_name =
        match prompts !! prompt_name with
        | Some v => Ok v
        | None => Raise (prompt_not_found prompt_name)
        end
  | None =>
      get_prompt config prompt_name = Raise TypeError ∨
      get_prompt config prompt_name = Raise (prompt_not_found prompt_name)
  end.
Proof.
  unfold mapping_at, section_entry, get_prompt.
  destruct (config !! "prompts") as [[| | | |s|l|d]|]; simpl; auto.
  - destruct (str_contains _ _); simpl; auto.
  - destruct (existsb _ _); simpl; auto.
  - split; [done|]. by destruct (d !! prompt_name).
Qed.

(** The specification's example, and the two ordinary outcomes. *)
Example get_prompt_missing :
  get_prompt summary_prompts "summary" = Ok (VStr "Summarize.") ∧
  get_prompt summary_prompts "missing" = Raise (prompt_not_found "missing") ∧
  get_prompt ∅ "missing" = Raise (prompt_not_found "missing").
Proof. by vm_compute. Qed.

(** ** get_llm_provider *)

(** Once [provider] has been read from [llm.provider], the guard of the
    WARNING line compares that same value with ['api-endpoint'] twice, with
    opposite outcomes required. *)
Lemma warning_condition_false (config : dict) (provider : value) :
  py_get (default (VDict ∅) (config !! "llm")) "provider" (VStr "vllm")
  = Ok provider →
  warning_condition config provider = Ok false.
Proof.
  unfold warning_condition, py_and. intros Hread. simpl.
  destruct (py_eq_str provider "api-endpoint") eqn:Heq; simpl; [done|].
  destruct (config !! "llm") as [llm|]; simpl; [|done].
  destruct llm as [| | | | | |d]; simplify_eq/=.
  destruct (d !! "provider") as [p|]; simpl in *; [|done].
  by rewrite Heq.
Qed.

Lemma get_llm_provider_unfold (config : dict) :
  get_llm_provider config =
    match py_get (default (VDict ∅) (config !! "llm")) "provider" (VStr "vllm") with
    | Ok provider => ([PrintReturning provider], Ok provider)
    | Raise e => ([], Raise e)
    end.
Proof.
  unfold get_llm_provider.
  destruct (py_get _ _ _) as [provider|e] eqn:Hread; simpl; [|done].
  by rewrite (warning_condition_false _ _ Hread).
Qed.

(** C7: the consistency check is dead code.  For every document and every
    provider value read from it, the guard of the WARNING line evaluates to
    false, and no run of [get_llm_provider] prints the WARNING line. *)
Theorem warning_branch_unreachable (config : dict) :
  (∀ provider,
     py_get (default (VDict ∅) (config !! "llm")) "provider" (VStr "vllm")
     = Ok provider →
     warning_condition config provider = Ok false) ∧
  (∀ provider, PrintWarning provider ∉ (get_llm_provider config).1).
Proof.
  split.
  - apply warning_condition_false.
  - intros provider. rewrite get_llm_provider_unfold.
    destruct (py_get _ _ _) as [read|e]; simpl.
    + intros Hin. apply list_elem_of_singleton in Hin. discriminate.
    + apply not_elem_of_nil.
Qed.

(** The guard is false even on the one document where its second half holds. *)
Example warning_condition_api_endpoint :
  warning_condition {[ "llm" := VDict {[ "provider" := VStr "api-endpoint" ]} ]}
    (VStr "api-endpoint") = Ok false.
Proof. reflexivity. Qed.

(** An [llm:] key with nothing under it parses to [None]: the provider entry
    is absent, but [None] has no [get] method. *)
Lemma llm_provider_claim_fails_on_null_section :
  (get_llm_provider {[ "llm" := VNone ]}).2 = Raise AttributeError ∧
  ¬ llm_provider_claim {[ "llm" := VNone ]}.
Proof.
  split; [reflexivity|].
  intros Hclaim. vm_compute in Hclaim. discriminate.
Qed.

(** C10, amended: on a document whose [llm] section is absent or a mapping,
    [get_llm_provider] returns the value stored at [llm.provider] when that
    key is present and the literal ['vllm'] when the section or the key is
    absent.  On any other document it raises [AttributeError] before it
    prints anything. *)
Theorem get_llm_provider_spec (config : dict) :
  match mapping_at config "llm" with
  | Some llm =>
      section_entry config "llm" "provider" = llm !! "provider" ∧
      (get_llm_provider config).2
      = Ok (default (VStr "vllm") (llm !! "provider"))
  | None => get_llm_provider config = ([], Raise AttributeError)
  end.
Proof.
  unfold mapping_at, section_entry.
  rewrite get_llm_provider_unfold.
  by destruct (config !! "llm") as [[| | | | | |d]|].
Qed.

(** The specification's example: no [llm] section, so ['vllm']. *)
Example get_llm_provider_default :
  (get_llm_provider ∅).2 = Ok (VStr "vllm") ∧
  (get_llm_provider api_endpoint_llm).2 = Ok (VStr "api-endpoint").
Proof. by vm_compute. Qed.

(** ** merge_configs on documents *)

(** What ends up under a key that the override holds: the recursive merge
    when both sides are mappings, the override's value otherwise. *)
Lemma merge_configs_lookup (base_config override_config : dict) (k : string) :
  merge_configs base_config override_config !! k =
    match override_config !! k with
    | Some v =>
        Some match v, base_config !! k with
             | VDict o, Some (VDict b) => VDict (merge_configs b o)
             | _, _ => v
             end
    | None => base_config !! k
    end.
Proof.
  unfold merge_configs. cbn [merge_configs_rec]. revert k.
  apply (map_fold_weak_ind (fun (r m : dict) => ∀ k : string,
    r !! k = match m !! k with
             | Some v =>
                 Some match v, base_config !! k with
                      | VDict o, Some (VDict b) =>
                          VDict (merge_configs_rec b (VDict o))
                      | _, _ => v
                      end
             | None => base_config !! k
             end)).
  - intros k. by rewrite lookup_empty.
  - intros i x m r Hfresh IH k.
    pose proof (IH i) as Hri. rewrite Hfresh in Hri.
    destruct (decide (i = k)) as [->|Hne].
    + rewrite lookup_insert_eq, Hri.
      destruct x, (base_config !! k) as [[]|]; by rewrite lookup_insert_eq.
    + rewrite (lookup_insert_ne m) by done. rewrite <- IH.
      destruct x, (r !! i) as [[]|]; by rewrite lookup_insert_ne.
Qed.

(** C1: [merge_configs base override] is [base] with every key of [override]
    applied.  Under a key of [override] the result holds the recursive merge
    when both sides hold mappings and the override's value otherwise; a key
    of [base] that [override] lacks keeps its value; the keys of the result
    are those of either side; and the specification's example evaluates as
    stated. *)
Theorem merge_configs_spec (base_config override_config : dict) :
  (∀ k v, override_config !! k = Some v →
     merge_configs base_config override_config !! k =
       Some match v, base_config !! k with
            | VDict o, Some (VDict b) => VDict (merge_configs b o)
            | _, _ => v
            end) ∧
  (∀ k, override_config !! k = None →
     merge_configs base_config override_config !! k = base_config !! k) ∧
  dom (merge_configs base_config override_config)
  = dom base_config ∪ dom override_config ∧
  merge_configs merge_example_base merge_example_override
  = merge_example_result.
Proof.
  split; [|split; [|split]].
  - intros k v Hk. by rewrite merge_configs_lookup, Hk.
  - intros k Hk. by rewrite merge_configs_lookup, Hk.
  - apply set_eq. intros k.
    rewrite elem_of_union, !elem_of_dom, merge_configs_lookup.
    destruct (override_config !! k) as [v|].
    + split; [intros _; right|]; eauto.
    + split; [by left|]. intros [?|[? ?]]; done.
  - by vm_compute.
Qed.

(** Scalar conflicts go to the override, also against a mapping. *)
Example merge_configs_scalar_over_mapping :
  merge_configs {[ "a" := VDict {[ "x" := VInt 1 ]} ]} {[ "a" := VInt 7 ]}
  = {[ "a" := VInt 7 ]}.
Proof. by vm_compute. Qed.

Example merge_configs_mapping_over_scalar :
  merge_configs {[ "a" := VInt 7 ]} {[ "a" := VDict {[ "x" := VInt 1 ]} ]}
  = {[ "a" := VDict {[ "x" := VInt 1 ]} ]}.
Proof. by vm_compute. Qed.

(** ** merge_configs on the store *)

Lemma alloc_spec (o : obj) (h : heap) (l : loc) (h' : heap) :
  alloc o h = (l, h') → h !! l = None ∧ h' = <[l := o]> h.
Proof.
  unfold alloc. intros [= <- <-]. split; [|done].
  apply not_elem_of_dom. apply is_fresh.
Qed.

(** A write to an object that the earlier store does not hold leaves the
    earlier store intact. *)
Lemma setitem_frame (h0 h : heap) (result : loc) (key : string) (v : hval) :
  h0 !! result = None → h0 ⊆ h → h0 ⊆ setitem result key v h.
Proof.
  intros Hnew Hsub. unfold setitem.
  destruct (lookup_dict h result); [|done].
  by apply insert_subseteq_r.
Qed.

Lemma merge_configs_store_S (fuel : nat) (base_config override_config : loc)
    (h : heap) :
  merge_configs_store (S fuel) base_config override_config h =
    (b ← lookup_dict h base_config;
     items ← lookup_dict h override_config;
     h' ← merge_items (merge_configs_store fuel)
            (alloc (ODict b) h).1 items (alloc (ODict b) h).2;
     Some ((alloc (ODict b) h).1, h')).
Proof.
  simpl. destruct (lookup_dict h base_config); [|done]. simpl.
  by destruct (lookup_dict h override_config).
Qed.

(** Invariants of the loop are carried from the store it starts in across
    each turn. *)
Lemma merge_items_ind (P : heap → Prop)
    (merge : loc → loc → heap → option (loc * heap)) (result : loc)
    (items : gmap string hval) (h : heap) :
  P h →
  (∀ key value h1 h2,
     P h1 → merge_item merge result key value h1 = Some h2 → P h2) →
  ∀ h', merge_items merge result items h = Some h' → P h'.
Proof.
  intros Hstart Hturn. unfold merge_items.
  apply (map_fold_weak_ind (fun acc (_ : gmap string hval) =>
           ∀ h', acc = Some h' → P h')).
  - by intros h' [= <-].
  - intros key value m acc _ IHacc h' Hstep.
    destruct acc as [h1|]; [|done]. simpl in Hstep. eauto.
Qed.

Lemma merge_item_extends (merge : loc → loc → heap → option (loc * heap))
    (h0 : heap) (result : loc) (key : string) (value : hval) (h1 h2 : heap) :
  (∀ lb lv h m h', merge lb lv h = Some (m, h') → h ⊆ h') →
  h0 !! result = None →
  h0 ⊆ h1 → merge_item merge result key value h1 = Some h2 → h0 ⊆ h2.
Proof.
  intros Hmerge Hnew Hsub. unfold merge_item. intros Hturn.
  destruct (as_dict h1 value) as [lv|];
    [destruct (lookup_dict h1 result ≫= _) as [lb|]|].
  - destruct (merge lb lv h1) as [[m h3]|] eqn:Hrec; [|done].
    simpl in Hturn. injection Hturn as <-.
    apply setitem_frame; [done|]. etrans; [exact Hsub|]. by eapply Hmerge.
  - injection Hturn as <-. by apply setitem_frame.
  - injection Hturn as <-. by apply setitem_frame.
Qed.

Lemma merge_configs_store_extends (fuel : nat) :
  ∀ (base_config override_config : loc) (h : heap) (r : loc) (h' : heap),
    merge_configs_store fuel base_config override_config h = Some (r, h') →
    h ⊆ h'.
Proof.
  induction fuel as [|fuel IH]; intros base over h r h' Hrun; [done|].
  rewrite merge_configs_store_S in Hrun.
  apply bind_Some in Hrun as (b & _ & Hrun).
  apply bind_Some in Hrun as (items & _ & Hrun).
  apply bind_Some in Hrun as (hh & Hloop & Hrun).
  injection Hrun as <- <-.
  destruct (alloc (ODict b) h) as [result h1] eqn:Halloc.
  apply alloc_spec in Halloc as [Hnew ->]. simpl in Hloop.
  revert hh Hloop. apply merge_items_ind.
  - by apply insert_subseteq_r.
  - intros key value h1 h2 Hsub. by apply merge_item_extends.
Qed.

Lemma map_sequence_Some (m : gmap string (option value)) (d : dict) :
  map_sequence m = Some d ↔ ∀ k, m !! k = Some <$> d !! k.
Proof.
  unfold map_sequence. split.
  - case_decide as Hall; [|done]. intros [= <-] k.
    rewrite lookup_omap. destruct (m !! k) as [o|] eqn:Hk; [|done].
    destruct (Hall k o Hk) as [v ->]. done.
  - intros Hm. rewrite decide_True.
    + f_equal. apply map_eq. intros k. rewrite lookup_omap, Hm.
      by destruct (d !! k).
    + intros k o Hk. rewrite Hm in Hk. destruct (d !! k); naive_solver.
Qed.

(** Whatever can be read from a store can be read, unchanged, from any store
    that extends it. *)
Lemma reify_mono (n : nat) :
  ∀ (h h' : heap) (v : hval) (t : value),
    h ⊆ h' → reify n h v = Some t → reify n h' v = Some t.
Proof.
  induction n as [|n IH]; intros h h' v t Hsub Hread;
    destruct v as [| | | | |l]; try done.
  simpl in *.
  destruct (h !! l) as [o|] eqn:Hl; [|done].
  rewrite (lookup_weaken _ _ _ _ Hl Hsub).
  destruct o as [d|xs].
  - destruct (map_sequence (reify n h <$> d)) as [td|] eqn:Hseq; [|done].
    simpl in Hread. injection Hread as <-.
    assert (map_sequence (reify n h' <$> d) = Some td) as ->; [|done].
    apply map_sequence_Some. intros k.
    pose proof (proj1 (map_sequence_Some _ _) Hseq k) as Hk.
    rewrite lookup_fmap in Hk |- *.
    destruct (d !! k) as [x|], (td !! k) as [tx|]; simplify_eq/=; [|done].
    f_equal. by eapply IH.
  - destruct (mapM (reify n h) xs) as [ts|] eqn:Hxs; [|done].
    simpl in Hread. injection Hread as <-.
    assert (mapM (reify n h') xs = Some ts) as ->; [|done].
    apply mapM_Some. apply mapM_Some in Hxs.
    revert Hxs. apply Forall2_impl. intros x tx Hx. by eapply IH.
Qed.

(** The result is not a deep copy: a nested mapping of the base that the
    override does not touch is held by the result through the very reference
    the base holds (object 2 here).  The arguments stay intact all the same,
    since the call writes to objects of its own making only. *)
Example merge_configs_store_shares :
  (merge_configs_store 1 1 4 merge_example_store
     ≫= fun '(r, h') => lookup_dict h' r)
  = Some (<["a" := HRef 2%positive]> (<["y" := HInt 9]> {[ "z" := HInt 3 ]})).
Proof. by vm_compute. Qed.

(** ** The store program computes the merge of the documents *)

Lemma reify_dict_inv (n : nat) (h : heap) (l : loc) (d : dict) :
  reify n h (HRef l) = Some (VDict d) →
  ∃ n' hd, n = S n' ∧ h !! l = Some (ODict hd) ∧
    ∀ k, reify n' h <$> hd !! k = Some <$> d !! k.
Proof.
  destruct n as [|n']; [done|]. simpl. intros Hread.
  destruct (h !! l) as [[hd|xs]|]; [| |done].
  - destruct (map_sequence _) as [td|] eqn:Hseq; [|done].
    injection Hread as ->. exists n', hd. split; [done|]. split; [done|].
    intros k. rewrite <- (proj1 (map_sequence_Some _ _) Hseq k).
    by rewrite lookup_fmap.
  - by destruct (mapM _ _).
Qed.

Lemma reify_dict_intro (n : nat) (h : heap) (l : loc) (hd : gmap string hval)
    (d : dict) :
  h !! l = Some (ODict hd) →
  (∀ k, reify n h <$> hd !! k = Some <$> d !! k) →
  reify (S n) h (HRef l) = Some (VDict d).
Proof.
  intros Hl Hfields. simpl. rewrite Hl.
  assert (map_sequence (reify n h <$> hd) = Some d) as ->; [|done].
  apply map_sequence_Some. intros k. by rewrite lookup_fmap.
Qed.

(** [isinstance(x, dict)] on the store agrees with the shape of the document
    read through [x]. *)
Lemma as_dict_of_reify (n : nat) (g hh : heap) (x : hval) (d : dict) :
  g ⊆ hh → reify n g x = Some (VDict d) → ∃ l, x = HRef l ∧ as_dict hh x = Some l.
Proof.
  intros Hsub Hread. destruct x as [| | | | |l]; try by destruct n.
  apply reify_dict_inv in Hread as (n' & hd & -> & Hl & _).
  exists l. split; [done|]. unfold as_dict, lookup_dict.
  by rewrite (lookup_weaken _ _ _ _ Hl Hsub).
Qed.

Lemma reify_of_as_dict (n : nat) (g hh : heap) (x : hval) (v : value) (l : loc) :
  g ⊆ hh → reify n g x = Some v → as_dict hh x = Some l →
  x = HRef l ∧ ∃ d, v = VDict d.
Proof.
  intros Hsub Hread Hdict. destruct x as [| | | | |l']; try done.
  unfold as_dict, lookup_dict in Hdict.
  destruct (hh !! l') as [[hd|xs]|] eqn:Hl'; simplify_eq/=.
  split; [done|]. destruct n as [|n']; [done|]. simpl in Hread.
  destruct (g !! l) as [o|] eqn:Hl; [|done].
  pose proof (lookup_weaken _ _ _ _ Hl Hsub) as Hl2. simplify_eq.
  destruct (map_sequence _) as [td|]; simplify_eq/=. eauto.
Qed.

(** The plain assignment [result[key] = value] keeps the invariant when the
    merged document holds the override's value under the key. *)
Lemma loop_inv_setitem (n : nat) (h0 h : heap) (result : loc) (b o : dict)
    (m : gmap string hval) (hh : heap) (i : string) (x : hval) (v : value) :
  h !! result = None →
  loop_inv n h0 h result b o m hh →
  reify n h0 x = Some v →
  merge_configs b o !! i = Some v →
  loop_inv n h0 h result b o (<[i := x]> m) (setitem result i x hh).
Proof.
  intros Hnew (g & rd & Hh & Hh0 & Hg & Hgres & Hdom & Hres & Hrd) Hx Hexp.
  unfold setitem, lookup_dict. rewrite Hres.
  exists g, (<[i := x]> rd). repeat split; try done.
  - by apply insert_subseteq_r.
  - by apply insert_subseteq_r.
  - by rewrite lookup_insert_eq.
  - intros k. destruct (decide (i = k)) as [<-|Hne].
    + rewrite !lookup_insert_eq. simpl.
      by rewrite (reify_mono _ _ _ _ _ Hh0 Hx), Hexp.
    + rewrite !lookup_insert_ne by done. apply Hrd.
Qed.

Lemma merge_item_refines (n : nat) (h0 h : heap) (result : loc) (b o : dict)
    (m : gmap string hval) (hh : heap) (i : string) (x : hval) (v : value) :
  refines_at n →
  h !! result = None →
  loop_inv n h0 h result b o m hh →
  m !! i = None →
  reify n h0 x = Some v →
  o !! i = Some v →
  ∃ hh', merge_item (merge_configs_store n) result i x hh = Some hh' ∧
         loop_inv n h0 h result b o (<[i := x]> m) hh'.
Proof.
  intros IH Hnew Hinv Hi Hx Hoi.
  pose proof Hinv as (g & rd & Hh & Hh0 & Hg & Hgres & Hdom & Hres & Hrd).
  assert (Hxg : reify n g x = Some v) by by eapply reify_mono.
  pose proof (Hrd i) as Hbase. rewrite Hi in Hbase.
  pose proof (merge_configs_lookup b o i) as Hexp. rewrite Hoi in Hexp.
  unfold merge_item, lookup_dict at 1. rewrite Hres. simpl.
  destruct (as_dict hh x) as [lv|] eqn:Hlv;
    [destruct (rd !! i ≫= as_dict hh) as [lb|] eqn:Hlb|].
  - (* both sides hold a dict: recursive call *)
    destruct (reify_of_as_dict _ _ _ _ _ _ Hg Hxg Hlv) as [-> [o' ->]].
    apply bind_Some in Hlb as (y & Hy & Hlb). rewrite Hy in Hbase.
    destruct (b !! i) as [tb|] eqn:Hbi; [|done].
    simpl in Hbase. injection Hbase as Hyg.
    destruct (reify_of_as_dict _ _ _ _ _ _ Hg Hyg Hlb) as [-> [b' ->]].
    destruct (IH g hh lb lv b' o' Hg Hyg Hxg)
      as (r & h3 & g' & Hrun & Hgg' & Hg'h3 & Hdom' & Hread).
    rewrite Hrun. simpl.
    pose proof (merge_configs_store_extends _ _ _ _ _ _ Hrun) as Hext.
    assert (Hg'res : g' !! result = None).
    { destruct (g' !! result) eqn:Hgr; [|done].
      destruct (Hdom' result) as [? ?]; [by eauto..|congruence]. }
    unfold setitem, lookup_dict. rewrite (lookup_weaken _ _ _ _ Hres Hext).
    eexists. split; [done|].
    exists g', (<[i := HRef r]> rd). repeat split.
    + apply insert_subseteq_r; [done|]. by etrans.
    + by etrans.
    + by apply insert_subseteq_r.
    + done.
    + intros l Hl Hl'. apply Hdom; [done|]. apply Hdom'; [|done].
      destruct Hl as [ol Hl]. exists ol. by eapply lookup_weaken.
    + by rewrite lookup_insert_eq.
    + intros k. destruct (decide (i = k)) as [<-|Hne].
      * rewrite !lookup_insert_eq. simpl. rewrite Hexp, Hread. done.
      * rewrite !lookup_insert_ne by done. rewrite <- Hrd.
        destruct (rd !! k) as [y|] eqn:Hk; simpl; [|done].
        pose proof (Hrd k) as Hyk. rewrite Hk in Hyk. simpl in Hyk.
        destruct (reify n g y) as [ty|] eqn:Hty.
        -- by rewrite (reify_mono _ _ _ _ _ Hgg' Hty).
        -- by destruct (m !! k), (merge_configs b o !! k), (b !! k).
  - (* the base side holds no dict: plain assignment *)
    eexists. split; [done|]. eapply loop_inv_setitem; [done..|].
    rewrite Hexp. destruct v as [| | | | | |o']; try done.
    destruct (b !! i) as [[| | | | | |b']|] eqn:Hbi; try done.
    exfalso. destruct (rd !! i) as [y|] eqn:Hy; [|done].
    simpl in Hbase. injection Hbase as Hyg.
    destruct (as_dict_of_reify _ _ _ _ _ Hg Hyg) as (l & -> & Hl).
    simpl in Hlb, Hl. congruence.
  - (* the override holds no dict: plain assignment *)
    eexists. split; [done|]. eapply loop_inv_setitem; [done..|].
    rewrite Hexp. destruct v as [| | | | | |o']; try done.
    exfalso. destruct (as_dict_of_reify _ _ _ _ _ Hg Hxg) as (l & -> & Hl).
    congruence.
Qed.

Lemma merge_configs_store_refines_at (n : nat) : refines_at n.
Proof.
  induction n as [|n IH]; intros h0 h base over b o Hsub Hb Ho; [done|].
  apply reify_dict_inv in Hb as (n1 & hb & [= <-] & Hbase & Hhb).
  apply reify_dict_inv in Ho as (n2 & ho & [= <-] & Hover & Hho).
  rewrite merge_configs_store_S. unfold lookup_dict at 1 2.
  rewrite (lookup_weaken _ _ _ _ Hbase Hsub), (lookup_weaken _ _ _ _ Hover Hsub).
  cbn [mbind option_bind].
  destruct (alloc (ODict hb) h) as [result h1] eqn:Halloc.
  apply alloc_spec in Halloc as [Hnew ->]. cbn [fst snd].
  assert (Hnew0 : h0 !! result = None).
  { destruct (h0 !! result) eqn:Hr; [|done].
    by rewrite (lookup_weaken _ _ _ _ Hr Hsub) in Hnew. }
  assert (Hloop : ho ⊆ ho →
    ∃ hh, merge_items (merge_configs_store n) result ho
            (<[result := ODict hb]> h) = Some hh ∧
          loop_inv n h0 h result b o ho hh).
  { unfold merge_items.
    apply (map_fold_weak_ind (fun acc m => m ⊆ ho →
             ∃ hh, acc = Some hh ∧ loop_inv n h0 h result b o m hh)).
    - intros _. eexists. split; [done|].
      exists h0, hb. repeat split; try done.
      + by apply insert_subseteq_r.
      + by apply insert_subseteq_r.
      + by rewrite lookup_insert_eq.
    - intros i x m acc Hi IHacc Hm.
      assert (Hix : ho !! i = Some x).
      { eapply lookup_weaken; [|exact Hm]. by rewrite lookup_insert_eq. }
      destruct IHacc as (hh & -> & Hinv).
      { etrans; [|exact Hm]. by apply insert_subseteq. }
      simpl. pose proof (Hho i) as Hoi. rewrite Hix in Hoi. simpl in Hoi.
      destruct (o !! i) as [v|] eqn:Hv; [|done]. injection Hoi as Hx.
      by eapply merge_item_refines. }
  destruct Hloop as (hh & -> & g & rd & Hh & Hh0 & Hg & Hgres & Hdom & Hres & Hrd);
    [done|].
  cbn [mbind option_bind].
  exists result, hh, (<[result := ODict rd]> g). split; [done|].
  repeat split.
  - apply insert_subseteq_r; done.
  - by apply insert_subseteq_l.
  - intros l Hl Hl'. destruct (decide (l = result)) as [->|Hne].
    + rewrite Hnew in Hl. by destruct Hl.
    + rewrite lookup_insert_ne in Hl' by done. by apply Hdom.
  - apply (reify_dict_intro n _ _ (rd)).
    + by rewrite lookup_insert_eq.
    + intros k. pose proof (Hrd k) as Hk. pose proof (Hho k) as Hok.
      assert (Hexp : (if ho !! k is Some _ then merge_configs b o !! k else b !! k)
                     = merge_configs b o !! k).
      { destruct (ho !! k); [done|]. rewrite merge_configs_lookup.
        by destruct (o !! k). }
      rewrite Hexp in Hk. rewrite <- Hk.
      destruct (rd !! k) as [y|] eqn:Hy; simpl; [|done].
      simpl in Hk. destruct (reify n g y) as [ty|] eqn:Hty.
      * by rewrite (reify_mono _ _ _ _ _ (insert_subseteq _ _ _ Hgres) Hty).
      * by destruct (merge_configs b o !! k).
Qed.

(** Refinement, and termination with it: when the base and the override can
    be read from the store to depth [n], the store program with fuel [n]
    returns, and the document read through its result is the merge of the
    two documents. *)
Lemma merge_configs_store_refines (n : nat) (h : heap)
    (base_config override_config : loc) (b o : dict) :
  reify n h (HRef base_config) = Some (VDict b) →
  reify n h (HRef override_config) = Some (VDict o) →
  ∃ r h',
    merge_configs_store n base_config override_config h = Some (r, h') ∧
    reify n h' (HRef r) = Some (VDict (merge_configs b o)).
Proof.
  intros Hb Ho.
  destruct (merge_configs_store_refines_at n h h base_config override_config
              b o) as (r & h' & h0' & Hrun & _ & Hsub & _ & Hread); [done..|].
  exists r, h'. split; [done|]. by eapply reify_mono.
Qed.

(** ** merge_configs leaves its arguments intact *)

(** C2: [merge_configs] does not mutate its arguments.  For a base and an
    override that are read from the store as the documents [b] and [o], the
    call returns, and after it the base is still read as [b] and the
    override as [o]; every object of the store before the call, nested
    mappings included, is in the store after it with the same content, so
    whatever could be read through any reference before is read unchanged
    after. *)
Theorem merge_configs_store_frame (n : nat) (h : heap)
    (base_config override_config : loc) (b o : dict) :
  reify n h (HRef base_config) = Some (VDict b) →
  reify n h (HRef override_config) = Some (VDict o) →
  (∃ r h', merge_configs_store n base_config override_config h = Some (r, h')) ∧
  ∀ fuel r h',
    merge_configs_store fuel base_config override_config h = Some (r, h') →
    reify n h' (HRef base_config) = Some (VDict b) ∧
    reify n h' (HRef override_config) = Some (VDict o) ∧
    (∀ l ob, h !! l = Some ob → h' !! l = Some ob) ∧
    (∀ m v t, reify m h v = Some t → reify m h' v = Some t).
Proof.
  intros Hb Ho. split.
  - destruct (merge_configs_store_refines n h base_config override_config b o)
      as (r & h' & Hrun & _); eauto.
  - intros fuel r h' Hrun. apply merge_configs_store_extends in Hrun.
    repeat split.
    + by eapply reify_mono.
    + by eapply reify_mono.
    + intros l ob Hl. by eapply lookup_weaken.
    + intros m v t. by apply reify_mono.
Qed.

Lemma merge_configs_store_frame_witness :
  ∃ r h',
    merge_configs_store 2 1 3 merge_example_store = Some (r, h') ∧
    reify 2 h' (HRef r) = Some (VDict merge_example_result) ∧
    reify 2 h' (HRef 1%positive) = Some (VDict merge_example_base) ∧
    reify 2 h' (HRef 3%positive) = Some (VDict merge_example_override) ∧
    reify 1 h' (HRef 2%positive)
    = Some (VDict (<["x" := VInt 1]> {[ "y" := VInt 2 ]})).
Proof.
  assert (Hb : reify 2 merge_example_store (HRef 1%positive)
               = Some (VDict merge_example_base)) by (vm_compute; reflexivity).
  assert (Ho : reify 2 merge_example_store (HRef 3%positive)
               = Some (VDict merge_example_override)) by (vm_compute; reflexivity).
  eexists _, _. split; [vm_compute; reflexivity|].
  split; [vm_compute; reflexivity|].
  match goal with
  | |- context [reify 2 ?h' (HRef 1%positive)] =>
      destruct (proj2 (merge_configs_store_frame 2 merge_example_store 1 3
                         _ _ Hb Ho) 2%nat _ h' eq_refl)
        as (Hb' & Ho' & _ & Hall)
  end.
  split; [exact Hb'|]. split; [exact Ho'|].
  apply Hall. vm_compute. reflexivity.
Defined.

(** ** load_config *)

Section load_properties.

Variables PACKAGE_CONFIG_PATH ORIGINAL_CONFIG_PATH : string.
Variable safe_load : string → result value.

Let resolve := resolve_config_path PACKAGE_CONFIG_PATH ORIGINAL_CONFIG_PATH.
Let load := load_config PACKAGE_CONFIG_PATH ORIGINAL_CONFIG_PATH safe_load.

(** The order of resolution: an explicit path as given; otherwise the
    package path if it exists, else the legacy path if it exists, else the
    package path again. *)
Lemma resolve_config_path_order (fs : filesystem) (config_path : option string) :
  resolve fs config_path =
    match config_path with
    | Some path => path
    | None =>
        if os_path_exists fs PACKAGE_CONFIG_PATH then PACKAGE_CONFIG_PATH
        else if os_path_exists fs ORIGINAL_CONFIG_PATH then ORIGINAL_CONFIG_PATH
        else PACKAGE_CONFIG_PATH
    end.
Proof.
  unfold resolve, resolve_config_path. destruct config_path; [done|]. simpl.
  by repeat destruct (os_path_exists fs _).
Qed.

(** X11: the not-found error, with nothing printed, exactly when the
    resolved path does not exist. *)
Lemma load_config_not_found (fs : filesystem) (config_path : option string) :
  load fs config_path = ([], Raise (config_not_found (resolve fs config_path)))
  ↔ os_path_exists fs (resolve fs config_path) = false.
Proof.
  unfold load, load_config. fold (resolve fs config_path).
  destruct (os_path_exists fs (resolve fs config_path)); simpl; [|done].
  split; [|done].
  destruct (open_read _ _); simpl; [|done].
  destruct (safe_load _); simpl; [|done].
  destruct (py_in "llm" _ <&&> _) as [[]|]; simpl; [|done..].
  by destruct (_ ≫= _).
Qed.

(** X12: a file that parses to a mapping whose [llm] entry is absent or a
    mapping is loaded and returned. *)
Lemma load_config_returns (fs : filesystem) (config_path : option string)
    (content : string) (config llm : dict) :
  fs !! resolve fs config_path = Some (File content) →
  safe_load content = Ok (VDict config) →
  mapping_at config "llm" = Some llm →
  (load fs config_path).2 = Ok (VDict config).
Proof.
  unfold load, load_config, open_read, os_path_exists, mapping_at.
  fold (resolve fs config_path). intros -> Hparse Hllm.
  simpl. rewrite Hparse. simpl. unfold py_and. simpl.
  destruct (config !! "llm") as [[| | | | | |d]|]; simplify_eq/=; [|done].
  by destruct (_ !! "provider").
Qed.

(** C8: the debug code after parsing makes [load_config] fail on a file
    that exists and parses.  A file that parses to a mapping whose [llm]
    entry is [None] is not returned: the membership test
    ['provider' in config['llm']] raises [TypeError] once the loading line
    is printed. *)
Theorem load_config_null_llm (fs : filesystem) (path content : string) :
  fs !! path = Some (File content) →
  safe_load content = Ok (VDict {[ "llm" := VNone ]}) →
  load fs (Some path) = ([PrintLoading path], Raise TypeError).
Proof.
  unfold load, load_config, open_read, os_path_exists. simpl.
  intros -> Hparse. simpl. by rewrite Hparse.
Qed.

End load_properties.

Lemma load_config_null_llm_witness :
  load_config "/pkg/config.yaml" "/src/configs/config.yaml" parse_null_llm
    {[ "/etc/sdk.yaml" := File "llm:" ]} (Some "/etc/sdk.yaml")
  = ([PrintLoading "/etc/sdk.yaml"], Raise TypeError).
Proof.
  exact (load_config_null_llm "/pkg/config.yaml" "/src/configs/config.yaml"
           parse_null_llm {[ "/etc/sdk.yaml" := File "llm:" ]}
           "/etc/sdk.yaml" "llm:" eq_refl eq_refl).
Defined.

(** The same failure on an empty file, which parses to [None]. *)
Example load_config_empty_file :
  load_config "/pkg/config.yaml" "/src/configs/config.yaml"
    (fun _ => Ok VNone) {[ "/pkg/config.yaml" := File "" ]} None
  = ([PrintLoading "/pkg/config.yaml"], Raise TypeError).
Proof. reflexivity. Qed.

(** * Further properties *)

(** ** Laws of merge_configs on documents *)

(** X1: the empty document is neutral on both sides: an empty override
    changes nothing, and merging into an empty base gives the override. *)
Theorem merge_configs_empty (d : dict) :
  merge_configs d ∅ = d ∧ merge_configs ∅ d = d.
Proof.
  split.
  - unfold merge_configs. cbn [merge_configs_rec]. apply map_fold_empty.
  - apply map_eq. intros k. rewrite merge_configs_lookup, lookup_empty.
    by destruct (d !! k) as [[]|].
Qed.

Lemma depth_lookup (d : dict) (k : string) (v : value) :
  d !! k = Some v → depth v < depth (VDict d).
Proof.
  cbn [depth]. intros Hk. apply Nat.lt_succ_r. revert k v Hk.
  apply (map_fold_weak_ind (fun acc (m : dict) =>
           ∀ k v, m !! k = Some v → depth v ≤ acc)).
  - intros k v. by rewrite lookup_empty.
  - intros i x m acc _ IH k v Hk.
    destruct (decide (i = k)) as [->|Hne].
    + rewrite lookup_insert_eq in Hk. injection Hk as ->. lia.
    + rewrite lookup_insert_ne in Hk by done. specialize (IH k v Hk). lia.
Qed.

(** Merging a document with itself gives it back. *)
Lemma merge_configs_self_depth (n : nat) :
  ∀ d : dict, depth (VDict d) ≤ n → merge_configs d d = d.
Proof.
  induction n as [|n IH]; intros d Hn; [cbn [depth] in Hn; lia|].
  apply map_eq. intros k. rewrite merge_configs_lookup.
  destruct (d !! k) as [v|] eqn:Hk; [|done].
  destruct v as [| | | | | |o]; try done.
  rewrite IH; [done|]. apply depth_lookup in Hk. lia.
Qed.

Lemma merge_configs_self (d : dict) : merge_configs d d = d.
Proof. by apply (merge_configs_self_depth (depth (VDict d))). Qed.

Lemma merge_configs_twice_depth (n : nat) :
  ∀ b o : dict, depth (VDict o) ≤ n →
    merge_configs (merge_configs b o) o = merge_configs b o.
Proof.
  induction n as [|n IH]; intros b o Hn; [cbn [depth] in Hn; lia|].
  apply map_eq. intros k.
  rewrite (merge_configs_lookup (merge_configs b o) o k).
  destruct (o !! k) as [v|] eqn:Hk; [|done].
  rewrite (merge_configs_lookup b o k), Hk.
  destruct v as [| | | | | |o']; try done.
  apply depth_lookup in Hk.
  destruct (b !! k) as [[| | | | | |b']|].
  7: { rewrite IH; [done|lia]. }
  all: by rewrite merge_configs_self.
Qed.

(** X2: applying the same override twice is the same as applying it once,
    and a document merged with itself is unchanged. *)
Theorem merge_configs_idempotent (base_config override_config : dict) :
  merge_configs (merge_configs base_config override_config) override_config
  = merge_configs base_config override_config ∧
  merge_configs override_config override_config = override_config.
Proof.
  split.
  - by apply (merge_configs_twice_depth (depth (VDict override_config))).
  - apply merge_configs_self.
Qed.

(** ** Accessors over a merged document *)

(** X3: a section that the override does not mention is read from the merged
    document exactly as from the base, by every accessor of that section. *)
Theorem merge_configs_untouched_section (base_config override_config : dict) :
  (override_config !! "paths" = None →
   ∀ path_type file_type,
     get_path_config (merge_configs base_config override_config)
       path_type file_type
     = get_path_config base_config path_type file_type) ∧
  (override_config !! "llm" = None →
   get_llm_provider (merge_configs base_config override_config)
   = get_llm_provider base_config) ∧
  (override_config !! "prompts" = None →
   ∀ prompt_name,
     get_prompt (merge_configs base_config override_config) prompt_name
     = get_prompt base_config prompt_name) ∧
  (override_config !! "vllm" = None →
   get_vllm_config (merge_configs base_config override_config)
   = get_vllm_config base_config) ∧
  (override_config !! "api-endpoint" = None →
   get_openai_config (merge_configs base_config override_config)
   = get_openai_config base_config) ∧
  (override_config !! "generation" = None →
   get_generation_config (merge_configs base_config override_config)
   = get_generation_config base_config) ∧
  (override_config !! "curate" = None →
   get_curate_config (merge_configs base_config override_config)
   = get_curate_config base_config) ∧
  (override_config !! "format" = None →
   get_format_config (merge_configs base_config override_config)
   = get_format_config base_config).
Proof.
  repeat apply conj.
  - intros Hk path_type file_type. unfold get_path_config.
    by rewrite merge_configs_lookup, Hk.
  - intros Hk. rewrite !get_llm_provider_unfold.
    by rewrite merge_configs_lookup, Hk.
  - intros Hk prompt_name. unfold get_prompt.
    by rewrite merge_configs_lookup, Hk.
  - intros Hk. unfold get_vllm_config. by rewrite merge_configs_lookup, Hk.
  - intros Hk. unfold get_openai_config. by rewrite merge_configs_lookup, Hk.
  - intros Hk. unfold get_generation_config.
    by rewrite merge_configs_lookup, Hk.
  - intros Hk. unfold get_curate_config. by rewrite merge_configs_lookup, Hk.
  - intros Hk. unfold get_format_config. by rewrite merge_configs_lookup, Hk.
Qed.

(** An entry of a mapping section of the override that is not itself a
    mapping is the entry of that section in the merged document, whatever
    the base holds. *)
Lemma merge_configs_section_entry (base_config override_config section : dict)
    (name key : string) (v : value) :
  override_config !! name = Some (VDict section) →
  section !! key = Some v →
  (∀ d, v ≠ VDict d) →
  ∃ merged,
    merge_configs base_config override_config !! name = Some (VDict merged) ∧
    merged !! key = Some v.
Proof.
  intros Hsection Hkey Hscalar. rewrite merge_configs_lookup, Hsection.
  destruct (base_config !! name) as [[| | | | | |b]|]; eauto.
  eexists. split; [done|]. rewrite merge_configs_lookup, Hkey.
  destruct v; try done. by destruct (Hscalar d).
Qed.

(** X4: a provider named by the override is the provider of the merged
    document, whatever the base holds under [llm]. *)
Theorem merge_configs_provider (base_config override_config llm : dict)
    (provider : string) :
  override_config !! "llm" = Some (VDict llm) →
  llm !! "provider" = Some (VStr provider) →
  get_llm_provider (merge_configs base_config override_config)
  = ([PrintReturning (VStr provider)], Ok (VStr provider)).
Proof.
  intros Hllm Hprovider.
  destruct (merge_configs_section_entry base_config _ _ _ _ _ Hllm Hprovider)
    as (merged & Hmerged & Hentry); [done|].
  rewrite get_llm_provider_unfold, Hmerged. simpl. by rewrite Hentry.
Qed.

Lemma merge_configs_provider_witness :
  get_llm_provider (merge_configs vllm_llm api_endpoint_llm)
  = ([PrintReturning (VStr "api-endpoint")], Ok (VStr "api-endpoint")).
Proof.
  apply (merge_configs_provider vllm_llm api_endpoint_llm
           {[ "provider" := VStr "api-endpoint" ]} "api-endpoint");
    vm_compute; reflexivity.
Defined.

(** X5: a prompt that the override gives as a string is the prompt of the
    merged document; a prompt that the override's [prompts] mapping lacks is
    looked up as in the base, when the base's [prompts] section is absent or
    a mapping. *)
Theorem merge_configs_prompt (base_config override_config prompts : dict)
    (prompt_name : string) :
  override_config !! "prompts" = Some (VDict prompts) →
  (∀ text, prompts !! prompt_name = Some (VStr text) →
     get_prompt (merge_configs base_config override_config) prompt_name
     = Ok (VStr text)) ∧
  (∀ base_prompts,
     mapping_at base_config "prompts" = Some base_prompts →
     prompts !! prompt_name = None →
     get_prompt (merge_configs base_config override_config) prompt_name
     = get_prompt base_config prompt_name).
Proof.
  intros Hprompts. split.
  - intros text Htext.
    destruct (merge_configs_section_entry base_config _ _ _ _ _ Hprompts Htext)
      as (merged & Hmerged & Hentry); [done|].
    unfold get_prompt. rewrite Hmerged. simpl.
    rewrite bool_decide_eq_true_2 by eauto. simpl. by rewrite Hentry.
  - intros base_prompts Hbase Hnone. unfold mapping_at in Hbase.
    unfold get_prompt. rewrite merge_configs_lookup, Hprompts.
    destruct (base_config !! "prompts") as [[| | | | | |b]|]; simplify_eq/=.
    + by rewrite merge_configs_lookup, Hnone.
    + by rewrite Hnone, lookup_empty.
Qed.

Lemma merge_configs_prompt_witness :
  get_prompt (merge_configs summary_prompts qa_prompts) "qa"
  = Ok (VStr "Ask.") ∧
  get_prompt (merge_configs summary_prompts qa_prompts) "summary"
  = Ok (VStr "Summarize.").
Proof.
  assert (Hover : qa_prompts !! "prompts" = Some (VDict {[ "qa" := VStr "Ask." ]}))
    by (vm_compute; reflexivity).
  destruct (merge_configs_prompt summary_prompts qa_prompts _ "qa" Hover)
    as [Hgiven _].
  destruct (merge_configs_prompt summary_prompts qa_prompts _ "summary" Hover)
    as [_ Hkept].
  split.
  - apply Hgiven. vm_compute. reflexivity.
  - apply (Hkept {[ "summary" := VStr "Summarize." ]});
      vm_compute; reflexivity.
Defined.

(** X6: a path that the override gives is the path of the merged document:
    a string [paths.input] for every [file_type], and a string entry of
    [paths.output] for the non-empty [file_type] that keys it. *)
Theorem merge_configs_path (base_config override_config paths : dict) :
  override_config !! "paths" = Some (VDict paths) →
  (∀ path file_type, paths !! "input" = Some (VStr path) →
     get_path_config (merge_configs base_config override_config)
       "input" file_type = Ok (VStr path)) ∧
  (∀ output file_type path,
     paths !! "output" = Some (VDict output) →
     file_type ≠ "" →
     output !! file_type = Some (VStr path) →
     get_path_config (merge_configs base_config override_config)
       "output" (Some file_type) = Ok (VStr path)).
Proof.
  intros Hpaths. split.
  - intros path file_type Hinput.
    destruct (merge_configs_section_entry base_config _ _ _ _ _ Hpaths Hinput)
      as (merged & Hmerged & Hentry); [done|].
    unfold get_path_config. rewrite Hmerged. simpl. by rewrite Hentry.
  - intros output file_type path Houtput Hgiven Hkeyed.
    destruct file_type as [|c rest]; [done|].
    assert (∃ merged out,
      merge_configs base_config override_config !! "paths"
      = Some (VDict merged) ∧
      merged !! "output" = Some (VDict out) ∧
      out !! String c rest = Some (VStr path))
      as (merged & out & Hmerged & Hout & Hentry).
    { rewrite merge_configs_lookup, Hpaths.
      destruct (base_config !! "paths") as [[| | | | | |b]|]; eauto.
      destruct (merge_configs_section_entry b paths output "output"
                  (String c rest) (VStr path) Houtput Hkeyed)
        as (out & Hout & Hentry); eauto. }
    unfold get_path_config. rewrite Hmerged. simpl. rewrite Hout. simpl. rewrite bool_decide_eq_true_2 by eauto. simpl. by rewrite Hentry.
Qed.

Lemma merge_configs_path_witness :
  get_path_config (merge_configs pdf_default_output txt_output)
    "output" (Some "txt") = Ok (VStr "/t").
Proof.
  assert (Hover : txt_output !! "paths"
                  = Some (VDict {[ "output" := VDict {[ "txt" := VStr "/t" ]} ]}))
    by (vm_compute; reflexivity).
  apply (proj2 (merge_configs_path pdf_default_output txt_output _ Hover)
           {[ "txt" := VStr "/t" ]} "txt" "/t");
    [vm_compute; reflexivity | discriminate | vm_compute; reflexivity].
Defined.

(** ** get_path_config and the empty file type *)

(** X7: an empty [file_type] is treated exactly as no [file_type], for
    every document and every path type. *)
Theorem get_path_config_empty_file_type (config : dict) (path_type : string) :
  get_path_config config path_type (Some "")
  = get_path_config config path_type None.
Proof.
  unfold get_path_config.
  destruct (String.eqb path_type "input"); [|done].
  destruct (py_get _ "input" _) as [[| | | | | |d]|]; done.
Qed.

(** ** load_config: resolution, outcomes and the debug line *)

(** The debug code after parsing raises nothing but [TypeError], and when its
    condition holds the provider it is about to print is there. *)
Lemma debug_condition_outcome (config : value) :
  match py_in "llm" config
        <&&> (llm ← py_getitem config "llm"; py_in "provider" llm) with
  | Raise e => e = TypeError
  | Ok true =>
      (llm ← py_getitem config "llm"; py_getitem llm "provider")
      = Raise TypeError ∨
      ∃ d provider, config = VDict d ∧
        section_entry d "llm" "provider" = Some provider ∧
        (llm ← py_getitem config "llm"; py_getitem llm "provider")
        = Ok provider
  | Ok false =>
      ∀ d, config = VDict d → section_entry d "llm" "provider" = None
  end.
Proof.
  unfold py_and, section_entry.
  destruct config as [| | | |s|l|d]; simpl; try done.
  - destruct (str_contains "llm" s); simpl; auto; done.
  - destruct (existsb _ l); simpl; auto; done.
  - destruct (d !! "llm") as [llm|] eqn:Hllm; simpl.
    + destruct llm as [| | | |s|l|d']; simpl; try done.
      * destruct (str_contains "provider" s); simpl; auto.
        intros ? [= <-]. by rewrite Hllm.
      * destruct (existsb _ l); simpl; auto.
        intros ? [= <-]. by rewrite Hllm.
      * destruct (d' !! "provider") as [provider|] eqn:Hp; simpl.
        -- right. exists d, provider. by rewrite Hllm.
        -- intros ? [= <-]. by rewrite Hllm.
    + intros ? [= <-]. by rewrite Hllm.
Qed.

Section load_outcomes.

Variables PACKAGE_CONFIG_PATH ORIGINAL_CONFIG_PATH : string.
Variable safe_load : string → result value.

Let resolve := resolve_config_path PACKAGE_CONFIG_PATH ORIGINAL_CONFIG_PATH.
Let load := load_config PACKAGE_CONFIG_PATH ORIGINAL_CONFIG_PATH safe_load.

(** X8: without an explicit path [load_config] behaves as with the explicit
    path that the fixed priority picks: the package path if it exists, else
    the legacy path if it exists, else the package path again. *)
Theorem load_config_default_path (fs : filesystem) :
  load fs None =
  load fs (Some (if os_path_exists fs PACKAGE_CONFIG_PATH
                 then PACKAGE_CONFIG_PATH
                 else if os_path_exists fs ORIGINAL_CONFIG_PATH
                      then ORIGINAL_CONFIG_PATH
                      else PACKAGE_CONFIG_PATH)).
Proof.
  unfold load, load_config.
  by rewrite !resolve_config_path_order.
Qed.


(** X10: the debug line tells the truth.  When a mapping is returned, the
    call has printed the loading line and then either the stored
    [llm.provider], which is also what [get_llm_provider] returns on the
    returned document, or the line saying that no provider is set, when the
    document has no such entry. *)
Theorem load_config_provider_line (fs : filesystem)
    (config_path : option string) (out : list output) (config : dict) :
  load fs config_path = (out, Ok (VDict config)) →
  match section_entry config "llm" "provider" with
  | Some provider =>
      out = [PrintLoading (resolve fs config_path); PrintHasProvider provider] ∧
      (get_llm_provider config).2 = Ok provider
  | None => out = [PrintLoading (resolve fs config_path); PrintNoProvider]
  end.
Proof.
  unfold load, load_config, os_path_exists, open_read.
  fold (resolve fs config_path).
  destruct (fs !! resolve fs config_path) as [[content|]|] eqn:Hfs; simpl;
    [|done..].
  destruct (safe_load content) as [parsed|e] eqn:Hparse; simpl; [|done].
  pose proof (debug_condition_outcome parsed) as Hdebug.
  destruct (py_in "llm" parsed <&&> _) as [[|]|e]; simpl; [| |done].
  - destruct Hdebug as [->|(d & provider & -> & Hentry & ->)]; simpl; [done|].
    intros [= <- <-]. rewrite Hentry. split; [done|].
    rewrite get_llm_provider_unfold. unfold section_entry in Hentry.
    destruct (d !! "llm") as [[| | | | | |llm]|]; simplify_eq/=.
    by rewrite Hentry.
  - intros [= <- ->]. by rewrite (Hdebug config eq_refl).
Qed.

End load_outcomes.

Lemma load_config_provider_line_witness :
  load_config "/pkg/config.yaml" "/src/configs/config.yaml"
    parse_api_endpoint {[ "/pkg/config.yaml" := File "llm: {provider: api-endpoint}" ]}
    None
  = ([PrintLoading "/pkg/config.yaml";
      PrintHasProvider (VStr "api-endpoint")], Ok (VDict api_endpoint_llm)) ∧
  (get_llm_provider api_endpoint_llm).2 = Ok (VStr "api-endpoint").
Proof.
  assert (Hrun :
    load_config "/pkg/config.yaml" "/src/configs/config.yaml"
      parse_api_endpoint
      {[ "/pkg/config.yaml" := File "llm: {provider: api-endpoint}" ]} None
    = ([PrintLoading "/pkg/config.yaml";
        PrintHasProvider (VStr "api-endpoint")], Ok (VDict api_endpoint_llm)))
    by (vm_compute; reflexivity).
  split; [exact Hrun|].
  exact (proj2 (load_config_provider_line _ _ _ _ _ _ _ Hrun)).
Defined.

Lemma load_config_returns_witness :
  (load_config "/pkg/config.yaml" "/src/configs/config.yaml" parse_api_endpoint
     {[ "/src/configs/config.yaml" := File "llm: {provider: api-endpoint}" ]}
     None).2
  = Ok (VDict api_endpoint_llm).
Proof.
  apply (load_config_returns "/pkg/config.yaml" "/src/configs/config.yaml"
           parse_api_endpoint
           {[ "/src/configs/config.yaml" := File "llm: {provider: api-endpoint}" ]}
           None "llm: {provider: api-endpoint}" api_endpoint_llm
           {[ "provider" := VStr "api-endpoint" ]});
    vm_compute; reflexivity.
Defined.

(** ** merge_configs on the store: fuel, the result object, sharing *)

Lemma merge_items_mono
    (merge1 merge2 : loc → loc → heap → option (loc * heap)) (result : loc)
    (items : gmap string hval) (h h' : heap) :
  (∀ lb lv h0 res, merge1 lb lv h0 = Some res → merge2 lb lv h0 = Some res) →
  merge_items merge1 result items h = Some h' →
  merge_items merge2 result items h = Some h'.
Proof.
  intros Hmerge. unfold merge_items. rewrite !map_fold_foldr.
  generalize (map_to_list items). intros l. revert h'.
  induction l as [|[key value] l IH]; intros h'; [done|].
  simpl. destruct (foldr _ (Some h) l) as [h1|] eqn:Hl; [|done].
  rewrite (IH h1 eq_refl). simpl. unfold merge_item.
  destruct (as_dict h1 value) as [lv|]; [|done].
  destruct (lookup_dict h1 result ≫= _) as [lb|]; [|done].
  destruct (merge1 lb lv h1) as [res|] eqn:Hrec; [|done].
  by rewrite (Hmerge _ _ _ _ Hrec).
Qed.

(** More fuel never changes a result already reached. *)
Lemma merge_configs_store_fuel (n : nat) :
  ∀ (m : nat) (base_config override_config : loc) (h : heap)
    (res : loc * heap),
    n ≤ m →
    merge_configs_store n base_config override_config h = Some res →
    merge_configs_store m base_config override_config h = Some res.
Proof.
  induction n as [|n IH]; intros m base over h res Hle Hrun; [done|].
  destruct m as [|m]; [lia|].
  rewrite merge_configs_store_S in Hrun |- *.
  apply bind_Some in Hrun as (b & Hb & Hrun). rewrite Hb.
  apply bind_Some in Hrun as (items & Hitems & Hrun). rewrite Hitems.
  apply bind_Some in Hrun as (hh & Hloop & Hrun).
  cbn [mbind option_bind].
  assert (Hloop' : merge_items (merge_configs_store m) (alloc (ODict b) h).1
                     items (alloc (ODict b) h).2 = Some hh).
  { revert Hloop. apply merge_items_mono.
    intros lb lv h0 res0. apply IH. lia. }
  by rewrite Hloop'.
Qed.

(** The dict the call returns is one it made: no object of the earlier
    store. *)
Lemma merge_configs_store_fresh (fuel : nat)
    (base_config override_config : loc) (h : heap) (r : loc) (h' : heap) :
  merge_configs_store fuel base_config override_config h = Some (r, h') →
  h !! r = None.
Proof.
  destruct fuel as [|fuel]; [done|]. rewrite merge_configs_store_S.
  intros Hrun.
  apply bind_Some in Hrun as (b & _ & Hrun).
  apply bind_Some in Hrun as (items & _ & Hrun).
  apply bind_Some in Hrun as (hh & _ & Hrun).
  injection Hrun as <- _.
  by destruct (alloc_spec (ODict b) h _ _ (surjective_pairing _)).
Qed.

(** X13: the store program computes the merge of the documents.  When the
    base and the override are read from the store as documents to depth
    [n], the call returns with fuel [n], with the same result for any
    larger fuel; the result is a dict object that the earlier store did not
    hold, and the document read through it is the merge of the two
    documents. *)
Theorem merge_configs_store_correct (n : nat) (h : heap)
    (base_config override_config : loc) (b o : dict) :
  reify n h (HRef base_config) = Some (VDict b) →
  reify n h (HRef override_config) = Some (VDict o) →
  ∃ r h',
    (∀ fuel, n ≤ fuel →
       merge_configs_store fuel base_config override_config h = Some (r, h')) ∧
    h !! r = None ∧
    reify n h' (HRef r) = Some (VDict (merge_configs b o)).
Proof.
  intros Hb Ho.
  destruct (merge_configs_store_refines n h base_config override_config b o
              Hb Ho) as (r & h' & Hrun & Hread).
  exists r, h'. repeat split; [|by eapply merge_configs_store_fresh|done].
  intros fuel Hle. by eapply merge_configs_store_fuel.
Qed.

Lemma merge_configs_store_correct_witness :
  ∃ r h',
    (∀ fuel, 2 ≤ fuel →
       merge_configs_store fuel 1 3 merge_example_store = Some (r, h')) ∧
    merge_example_store !! r = None ∧
    reify 2 h' (HRef r) = Some (VDict merge_example_result).
Proof.
  assert (Hb : reify 2 merge_example_store (HRef 1%positive)
               = Some (VDict merge_example_base)) by (vm_compute; reflexivity).
  assert (Ho : reify 2 merge_example_store (HRef 3%positive)
               = Some (VDict merge_example_override)) by (vm_compute; reflexivity).
  destruct (merge_configs_store_correct 2 merge_example_store 1 3 _ _ Hb Ho)
    as (r & h' & Hrun & Hfresh & Hread).
  exists r, h'. split; [exact Hrun|]. split; [exact Hfresh|].
  rewrite Hread. vm_compute. reflexivity.
Defined.

(** X14: the result is a shallow copy.  A key that only the base holds keeps,
    in the result, the very value the base object holds, and a key that only
    the override holds gets the very value the override object holds: a
    nested dict or list under such a key is shared by reference, not
    copied. *)
Theorem merge_configs_store_shallow (fuel : nat)
    (base_config override_config : loc) (h : heap) (r : loc) (h' : heap)
    (hb ho : gmap string hval) :
  lookup_dict h base_config = Some hb →
  lookup_dict h override_config = Some ho →
  merge_configs_store fuel base_config override_config h = Some (r, h') →
  ∃ rd,
    lookup_dict h' r = Some rd ∧
    (∀ k, ho !! k = None → rd !! k = hb !! k) ∧
    (∀ k, hb !! k = None → rd !! k = ho !! k).
Proof.
  destruct fuel as [|fuel]; [done|]. rewrite merge_configs_store_S.
  intros -> ->. cbn [mbind option_bind].
  destruct (alloc (ODict hb) h) as [result h1] eqn:Halloc.
  apply alloc_spec in Halloc as [Hnew ->]. cbn [fst snd]. intros Hrun.
  apply bind_Some in Hrun as (hh & Hloop & [= <- <-]).
  revert hh Hloop. unfold merge_items.
  apply (map_fold_weak_ind (fun acc (m : gmap string hval) =>
    ∀ hh, acc = Some hh →
      ∃ rd, lookup_dict hh result = Some rd ∧
        (∀ k, m !! k = None → rd !! k = hb !! k) ∧
        (∀ k, hb !! k = None → rd !! k = m !! k))).
  - intros hh [= <-]. exists hb. unfold lookup_dict.
    rewrite lookup_insert_eq. split; [done|]. split; [done|].
    intros k Hk. by rewrite lookup_empty.
  - intros i x m acc Hi IH hh Hstep.
    destruct acc as [h1|]; [|done]. simpl in Hstep.
    destruct (IH h1 eq_refl) as (rd & Hres & Hbase & Hover).
    assert (Hplain : ∀ h2, lookup_dict h2 result = Some rd →
      ∃ rd', lookup_dict (setitem result i x h2) result = Some rd' ∧
        (∀ k, <[i := x]> m !! k = None → rd' !! k = hb !! k) ∧
        (∀ k, hb !! k = None → rd' !! k = <[i := x]> m !! k)).
    { intros h2 Hres2. exists (<[i := x]> rd). unfold setitem. rewrite Hres2.
      unfold lookup_dict. rewrite lookup_insert_eq. split; [done|]. split.
      - intros k Hk. apply lookup_insert_None in Hk as [Hk Hne].
        rewrite lookup_insert_ne by done. by apply Hbase.
      - intros k Hk. destruct (decide (i = k)) as [->|Hne].
        + by rewrite !lookup_insert_eq.
        + rewrite !lookup_insert_ne by done. by apply Hover. }
    unfold merge_item in Hstep. rewrite Hres in Hstep. simpl in Hstep.
    destruct (as_dict h1 x) as [lv|];
      [destruct (rd !! i ≫= as_dict h1) as [lb|] eqn:Hlb|].
    + destruct (merge_configs_store fuel lb lv h1) as [[m' h3]|] eqn:Hrec;
        [|done].
      simpl in Hstep. injection Hstep as <-.
      apply merge_configs_store_extends in Hrec.
      assert (Hres3 : lookup_dict h3 result = Some rd).
      { unfold lookup_dict in Hres |- *.
        destruct (h1 !! result) as [[d|]|] eqn:Hr; simplify_eq.
        by rewrite (lookup_weaken _ _ _ _ Hr Hrec). }
      exists (<[i := HRef m']> rd). unfold setitem. rewrite Hres3.
      unfold lookup_dict. rewrite lookup_insert_eq. split; [done|].
      apply bind_Some in Hlb as (y & Hy & _).
      assert (Hbi : hb !! i ≠ None).
      { rewrite <- (Hbase i Hi), Hy. done. }
      split.
      * intros k Hk. apply lookup_insert_None in Hk as [Hk Hne].
        rewrite lookup_insert_ne by done. by apply Hbase.
      * intros k Hk. destruct (decide (i = k)) as [->|Hne]; [done|].
        rewrite !lookup_insert_ne by done. by apply Hover.
    + injection Hstep as <-. by apply Hplain.
    + injection Hstep as <-. by apply Hplain.
Qed.

Lemma merge_configs_store_shallow_witness :
  ∃ r h' rd,
    merge_configs_store 1 1 4 merge_example_store = Some (r, h') ∧
    lookup_dict h' r = Some rd ∧
    rd !! "a" = Some (HRef 2%positive) ∧
    rd !! "z" = Some (HInt 3).
Proof.
  eexists _, _. 
  assert (Hb : lookup_dict merge_example_store 1
               = Some {[ "a" := HRef 2%positive ]}) by (vm_compute; reflexivity).
  assert (Ho : lookup_dict merge_example_store 4
               = Some (<["y" := HInt 9]> {[ "z" := HInt 3 ]}))
    by (vm_compute; reflexivity).
  match goal with
  | |- ∃ rd, ?run = Some (?r, ?h') ∧ _ =>
      assert (Hrun : run = Some (r, h')) by (vm_compute; reflexivity)
  end.
  destruct (merge_configs_store_shallow 1 1 4 merge_example_store _ _ _ _
              Hb Ho Hrun) as (rd & Hrd & Hbase & Hover).
  exists rd. split; [exact Hrun|]. split; [exact Hrd|]. split.
  - rewrite Hbase; vm_compute; reflexivity.
  - rewrite Hover; vm_compute; reflexivity.
Defined.
